(** * aider-cli: the file lister, the filter, the sorter, the selector
      adapter and the command assembler of [aider-cli.py]

    Paths are Python [str] values; they are modelled as [string], the
    bytes of their UTF-8 text.  The separator, the dot and the newline are
    single bytes that occur in no longer sequence, and the byte order of
    UTF-8 is the order of the code points.  [str.lower] and [str.strip]
    follow the Unicode tables of the Python library and are a parameter
    ([StrLib]).  External programs (git, fzf, aider), the file system and
    the terminal are an explicit environment and an explicit trace of
    events. *)

From Stdlib Require Import ZArith Ascii String.
From stdpp Require Import base list strings gmap sets sorting.

Local Open Scope Z_scope.
Local Open Scope nat_scope.

(** ** Python [str] methods *)

Module Str.

Definition slash : ascii := "/"%char.
Definition dot : ascii := "."%char.
Definition newline : ascii := "010"%char.

(** [s.split(sep)] for a one-character separator: never empty, one more
    segment than there are separators. *)
Fixpoint split (sep : ascii) (s : string) : list string :=
  match s with
  | EmptyString => [EmptyString]
  | String c r =>
      if Ascii.eqb c sep then EmptyString :: split sep r
      else match split sep r with
           | p :: ps => String c p :: ps
           | [] => [String c EmptyString]
           end
  end.

(** [sep.join(parts)] *)
Definition join (sep : string) (parts : list string) : string :=
  String.concat sep parts.

(** [s.startswith(p)] *)
Definition startswith (s p : string) : bool := String.prefix p s.

(** [s.endswith(p)]: [p] is [s] or a suffix of its tail. *)
Fixpoint endswith (s p : string) : bool :=
  String.eqb s p ||
  match s with
  | EmptyString => false
  | String _ r => endswith r p
  end.

Definition lower_char (c : ascii) : ascii :=
  let n := nat_of_ascii c in
  if (65 <=? n) && (n <=? 90) then ascii_of_nat (n + 32) else c.

(** [s.lower()] on ASCII text *)
Fixpoint lower (s : string) : string :=
  match s with
  | EmptyString => EmptyString
  | String c r => String (lower_char c) (lower r)
  end.

(** [c.isspace()] on ASCII text: tab to carriage return, the four
    separators 28..31 and the blank. *)
Definition isspace (c : ascii) : bool :=
  let n := nat_of_ascii c in
  ((9 <=? n) && (n <=? 13)) || ((28 <=? n) && (n <=? 32)).

Fixpoint lstrip (s : string) : string :=
  match s with
  | EmptyString => EmptyString
  | String c r => if isspace c then lstrip r else s
  end.

Fixpoint rstrip (s : string) : string :=
  match s with
  | EmptyString => EmptyString
  | String c r =>
      match rstrip r with
      | EmptyString => if isspace c then EmptyString else String c EmptyString
      | r' => String c r'
      end
  end.

(** [s.strip()] on ASCII text *)
Definition strip (s : string) : string := lstrip (rstrip s).

(** [s.rstrip('/')] *)
Fixpoint rstrip_slash (s : string) : string :=
  match s with
  | EmptyString => EmptyString
  | String c r =>
      match rstrip_slash r with
      | EmptyString => if Ascii.eqb c slash then EmptyString else String c EmptyString
      | r' => String c r'
      end
  end.

End Str.

(** [str.lower()] and [str.strip()] follow the Unicode tables of the Python
    library; the program is stated over any implementation of the two. *)
Class StrLib := {
  str_lower : string → string;
  str_strip : string → string
}.

(** On ASCII text the two methods are [Str.lower] and [Str.strip]; the
    concrete runs below are on ASCII text. *)
Definition ascii_strlib : StrLib :=
  {| str_lower := Str.lower; str_strip := Str.strip |}.

(** ** Python's ordering of keys

    [sorted] compares keys with [<] only.  On [int], [bool], [str] and on
    tuples of these, [<] is the strict part of a total order, given here by
    a three-way comparison. *)

Class Cmp (K : Type) := cmp : K → K → comparison.
Global Hint Mode Cmp ! : typeclass_instances.

Definition py_lt {K} `{Cmp K} (a b : K) : bool :=
  match cmp a b with Lt => true | _ => false end.

Global Instance nat_cmp : Cmp nat := Nat.compare.

(** [False < True] *)
Global Instance bool_cmp : Cmp bool := λ a b,
  match a, b with
  | false, true => Lt
  | true, false => Gt
  | _, _ => Eq
  end.

(** Strings compare code point by code point, a proper prefix first. *)
Global Instance string_cmp : Cmp string := String.compare.

(** Tuples compare lexicographically: the first differing component decides. *)
Global Instance pair_cmp {A B} `{Cmp A, Cmp B} : Cmp (A * B) := λ p q,
  match cmp p.1 q.1 with
  | Eq => cmp p.2 q.2
  | c => c
  end.

(** [py_le a b] is Python's [not (b < a)]. *)
Definition py_le {K} `{Cmp K} (a b : K) : Prop := py_lt b a = false.

(** The laws of a total order given by a three-way comparison. *)
Class CmpLaws (K : Type) `{Cmp K} := {
  cmp_eq (a b : K) : cmp a b = Eq ↔ a = b;
  cmp_antisym (a b : K) : cmp b a = CompOpp (cmp a b);
  cmp_lt_trans (a b c : K) : cmp a b = Lt → cmp b c = Lt → cmp a c = Lt
}.

(** ** [sorted(l, key=key)]

    Python's sort is stable; on a total order of the keys its result is the
    stable sort of the list, computed here by insertion from the right: an
    element moves past exactly the elements whose key is strictly smaller. *)

Section Sorted.
Context {A K : Type} `{Cmp K} (key : A → K).

Fixpoint insort (x : A) (l : list A) : list A :=
  match l with
  | [] => [x]
  | y :: l' => if py_lt (key y) (key x) then y :: insort x l' else x :: l
  end.

Definition sorted (l : list A) : list A := foldr insort [] l.

(** The order of the elements by their keys. *)
Definition key_le (x y : A) : Prop := py_le (key x) (key y).
End Sorted.

(** ** Configuration (lines 8-65) *)

Definition CACHE_FILES : list string :=
  ["*.pyc"; "*.class"; "*.o"; "*.obj"; "*.dll"; "*.exe"; "*.so"; "*.cache";
   "*.swp"; "*~"].

Definition CACHE_DIRS : list string :=
  ["__pycache__"; "node_modules"; "target"; "build"; "dist"; ".cache";
   ".pytest_cache"; "*.egg-info"; "vendor"; ".gradle"].

Definition SKIP_FILES : list string :=
  ["__init__.py"; "aider-cli.py"; "aider-cli.sh"; ".aider.chat.history.md";
   ".aider.conf.yml"; ".aider.input..aider.input.history";
   ".aider.tags..aider.tags.cache.v3/"; ".codeiumignore"; "README.md";
   "ARCHITECTURE.md"] ++ CACHE_FILES.

Definition SKIP_DIRS : list string :=
  [".git/"; "config/"; "docs/"; "input/"; "output/"; "markdowns/"] ++ CACHE_DIRS.

Definition FILE_TYPES : list (string * (option string * string)) :=
  [("1", (Some "py", "Python files"));
   ("2", (Some "c", "C files"));
   ("3", (Some "cpp", "C++ files"));
   ("4", (Some "rs", "Rust files"));
   ("5", (Some "js", "JavaScript files"));
   ("6", (Some "ts", "TypeScript files"));
   ("7", (Some "sh", "Shell scripts"));
   ("8", (None, "All files"))].

(** ** The sorter (lines 204-225) *)

Definition file_key `{SL : StrLib} (file : string) : nat * bool * string * string :=
  let parts := Str.split Str.slash file in
  let is_dir := Str.endswith file "/" in
  (length parts,
   negb is_dir,
   String.concat "" (map (λ p, p +:+ "/") (removelast parts)),
   str_lower (List.last parts "")).

Definition sort_files `{SL : StrLib} (files : list string) : list string :=
  sorted file_key files.

(** ** [posixpath] *)

(** [os.path.basename(p)]: [p[p.rfind('/')+1:]], the text after the last
    separator. *)
Definition basename (p : string) : string :=
  List.last (Str.split Str.slash p) "".

(** [os.path.dirname(p)]: the text up to the last separator, without its
    trailing separators unless it consists of separators only. *)
Definition dirname (p : string) : string :=
  let head := String.concat "" (map (λ s, s +:+ "/") (removelast (Str.split Str.slash p))) in
  match Str.rstrip_slash head with
  | EmptyString => head
  | h => h
  end.

(** [os.path.join(a, b)] *)
Definition path_join (a b : string) : string :=
  if Str.startswith b "/" then b
  else if String.eqb a "" || Str.endswith a "/" then a +:+ b
  else a +:+ "/" +:+ b.

(** ** [fnmatch]

    [fnmatch.fnmatch(name, pattern)] belongs to the Python library; the
    filter is stated over any implementation of it. *)

Class Fnmatch := fnmatch : string → string → bool.

(** Shell-style matching for the patterns made of literal characters, [?]
    and [*], which covers every configured pattern (none has a bracket
    class). *)
Fixpoint glob (pattern name : string) : bool :=
  match pattern with
  | EmptyString => match name with EmptyString => true | _ => false end
  | String p pattern' =>
      if Ascii.eqb p "*" then
        (fix star (n : string) : bool :=
           glob pattern' n ||
           match n with
           | EmptyString => false
           | String _ n' => star n'
           end) name
      else
        match name with
        | EmptyString => false
        | String c name' => (Ascii.eqb p "?" || Ascii.eqb p c) && glob pattern' name'
        end
  end.

Definition glob_fnmatch : Fnmatch := λ name pattern, glob pattern name.

(** ** The filter (lines 99-117) *)

Section Filter.
Context `{Fnmatch}.

Definition should_keep (skip_patterns skip_dirs : list string) (file : string) : bool :=
  if Str.endswith file "/" then
    negb (existsb (λ dir, Str.startswith file dir) skip_dirs)
  else if Str.startswith (basename file) "." then false
  else negb (existsb (λ pattern, fnmatch (basename file) pattern) skip_patterns).

Definition filter_files (files skip_patterns skip_dirs : list string) : list string :=
  List.filter (should_keep skip_patterns skip_dirs) files.
End Filter.

(** ** Effects: the terminal, [sys.exit] and exceptions *)

Inductive exn :=
| CalledProcessError (msg : string)
| OSError (msg : string)
| ValueError (msg : string)
| KeyError (msg : string)
| EOFError.

(** [str(e)] *)
Definition exn_str (e : exn) : string :=
  match e with
  | CalledProcessError msg | OSError msg | ValueError msg | KeyError msg => msg
  | EOFError => ""
  end.

Inductive event :=
| Stdout (line : string)        (* print(line) *)
| Stderr (line : string)        (* print(line, file=sys.stderr) *)
| Prompt (text : string)        (* the prompt written by input(text) *)
| Exec (argv : list string).    (* subprocess.run(argv) of the assistant *)

(** The lines still to be read from standard input and what the program has
    done so far, oldest event first. *)
Record world := World { stdin : list string; trace : list event }.

Inductive outcome (A : Type) :=
| Ret (a : A)
| SysExit (code : Z)
| Raise (e : exn).
Arguments Ret {A} a.
Arguments SysExit {A} code.
Arguments Raise {A} e.

Definition IO (A : Type) : Type := world → outcome A * world.

Global Instance io_ret : MRet IO := λ A a w, (Ret a, w).

Global Instance io_bind : MBind IO := λ A B k m w,
  match m w with
  | (Ret a, w') => k a w'
  | (SysExit code, w') => (SysExit code, w')
  | (Raise e, w') => (Raise e, w')
  end.

Definition emit (e : event) : IO unit :=
  λ w, (Ret (), World (stdin w) (trace w ++ [e])).

Definition print (line : string) : IO unit := emit (Stdout line).
Definition eprint (line : string) : IO unit := emit (Stderr line).

(** [input(text)]: writes the prompt, then reads a line; [EOFError] when
    standard input is exhausted. *)
Definition input (text : string) : IO string := λ w,
  match stdin w with
  | [] => (Raise EOFError, World [] (trace w ++ [Prompt text]))
  | line :: rest => (Ret line, World rest (trace w ++ [Prompt text]))
  end.

Definition sys_exit {A} (code : Z) : IO A := λ w, (SysExit code, w).
Definition raise {A} (e : exn) : IO A := λ w, (Raise e, w).

(** The result of a call into the environment: a value or an exception. *)
Definition call {A} (r : exn + A) : IO A :=
  match r with
  | inl e => raise e
  | inr a => mret a
  end.

(** [try: body except ...: handler]; a handler answers [None] for an
    exception its clause does not catch.  [sys.exit] is not an [Exception]
    and passes through. *)
Definition try_except {A} (body : IO A) (handler : exn → option (IO A)) : IO A := λ w,
  match body w with
  | (Raise e, w') =>
      match handler e with
      | Some h => h w'
      | None => (Raise e, w')
      end
  | r => r
  end.

(** [except subprocess.CalledProcessError as e] *)
Definition except_CalledProcessError {A} (h : exn → IO A) (e : exn) : option (IO A) :=
  match e with
  | CalledProcessError _ => Some (h e)
  | _ => None
  end.

(** [except Exception as e] *)
Definition except_Exception {A} (h : exn → IO A) (e : exn) : option (IO A) :=
  Some (h e).

(** [for x in l: acc = body(acc, x)] *)
Fixpoint for_each {A S} (l : list A) (body : S → A → IO S) (acc : S) : IO S :=
  match l with
  | [] => mret acc
  | x :: l' => acc' ← body acc x; for_each l' body acc'
  end.

(** ** The environment: git, fzf, aider and the file system *)

Record Env := {
  (** [subprocess.check_output(cmd, text=True).splitlines()] of a git
      listing: the output lines, [CalledProcessError] on a non-zero exit,
      [OSError] when git cannot be started *)
  git_ls_files : list string → exn + list string;
  (** [subprocess.check_output(['git','rev-parse','--show-toplevel'],
      text=True).strip()] *)
  git_toplevel : exn + string;
  (** [subprocess.run(fzf_command, input=fzf_input.encode(), ...)]: the
      return code and decoded standard output of the selector, or the
      exception of a selector that cannot be started.  The argument vector
      is fixed configuration apart from the embedded [fzf_input]. *)
  run_fzf : string → exn + (Z * string);
  (** [subprocess.run(aider_command)] *)
  run_aider : list string → exn + Z;
  isdir : string → bool;
  (** the [(root, filenames)] pairs of [os.walk(top)] *)
  walk : string → list (string * list string);
  abspath : string → string;
  relpath : string → string → exn + string
}.

(** ** The file lister (lines 67-97) *)

(** The command of the listing; a missing or empty extension adds no
    pattern. *)
Definition git_ls_cmd (file_type : option string) : list string :=
  ["git"; "ls-files"; "--cached"; "--others"; "--exclude-standard"] ++
  match file_type with
  | Some (String _ _ as t) => ["*." +:+ t]
  | _ => []
  end.

(** Lines 86-90: the set of synthetic top-level directory entries. *)
Definition top_dirs (files : list string) : gset string :=
  fold_left
    (λ acc file,
       let parts := Str.split Str.slash file in
       if 1 <? length parts then {[ hd "" parts +:+ "/" ]} ∪ acc else acc)
    files ∅.

(** The key of line 92. *)
Definition entry_key `{SL : StrLib} (x : string) : bool * string :=
  (negb (Str.endswith x "/"), str_lower x).

(** Line 92, for the iteration order [dirs] of the set. *)
Definition all_entries `{SL : StrLib} (dirs files : list string) : list string :=
  sorted entry_key (dirs ++ files).

Definition get_git_files `{SL : StrLib} (env : Env) (file_type : option string) :
    IO (list string) :=
  try_except
    (files ← call (git_ls_files env (git_ls_cmd file_type));
     mret (all_entries (elements (top_dirs files)) files))
    (except_CalledProcessError (λ e,
       eprint ("Error retrieving Git files: " +:+ exn_str e);;
       sys_exit 1%Z)).

(** ** The interactive selector adapter (lines 129-202) *)

(** Lines 184-197: the paths added for one selected line. *)
Definition add_selected (env : Env) (git_root : string)
    (final_files : list string) (item : string) : IO (list string) :=
  if isdir env item then
    for_each (walk env item)
      (λ acc '(root, filenames),
         for_each filenames
           (λ acc filename,
              if Str.endswith filename ".py" then
                let abs_path := path_join root filename in
                rel_path ← call (relpath env abs_path git_root);
                mret (acc ++ [rel_path])
              else mret acc)
           acc)
      final_files
  else
    rel_path ← call (relpath env item git_root);
    mret (final_files ++ [rel_path]).

Definition interactive_file_selection `{SL : StrLib} (env : Env) (files : list string) :
    IO (list string) :=
  try_except
    (let current_dir :=
       abspath env (match files with f :: _ => dirname f | [] => "." end) in
     git_root ← try_except (call (git_toplevel env))
                   (except_CalledProcessError (λ _, mret current_dir));
     let fzf_input := Str.join (String Str.newline "") files in
     result ← call (run_fzf env fzf_input);
     if (result.1 =? 0)%Z then
       let selected := Str.split Str.newline (str_strip result.2) in
       final_files ← for_each selected (add_selected env git_root) [];
       mret (sorted id (elements (list_to_set final_files : gset string)))
     else mret [])
    (except_Exception (λ e,
       eprint ("Error running fzf: " +:+ exn_str e);;
       sys_exit 1%Z)).

(** ** Directory expansion (lines 227-234) *)

Definition expand_directory (env : Env) (directory : string) : IO (list string) :=
  try_except
    (call (git_ls_files env
       ["git"; "ls-files"; "--cached"; "--others"; "--exclude-standard";
        directory +:+ "*"]))
    (except_CalledProcessError (λ _,
       eprint ("Error finding files in " +:+ directory);;
       mret [])).

(** ** The command assembler and [main] (lines 236-279) *)

(** Lines 270-272 *)
Definition aider_command (final_files : list string) : list string :=
  fold_left (λ cmd f, cmd ++ ["--file"; f]) final_files ["aider"].

(** Lines 265-279: the end of [main], from the final path list on. *)
Definition dispatch `{SL : StrLib} (env : Env) (final_files : list string) : IO unit :=
  (if bool_decide (final_files = []) then
     print "No files selected. Exiting.";;
     sys_exit 0%Z
   else mret ());;
  print "Generated Aider command:";;
  print (Str.join " " (aider_command final_files));;
  answer ← input "Do you want to execute this command? (yes/no): ";
  let execute := str_lower answer in
  if String.eqb execute "yes" then
    emit (Exec (aider_command final_files));;
    call (run_aider env (aider_command final_files));;
    mret ()
  else mret ().

(** Lines 241-245: reads lines until one is, stripped, a key of
    [FILE_TYPES]. *)
Fixpoint read_choice `{SL : StrLib} (lines : list string) (tr : list event) :
    outcome string * world :=
  let tr := tr ++ [Prompt "Enter your choice (1-8): "] in
  match lines with
  | [] => (Raise EOFError, World [] tr)
  | line :: rest =>
      let choice := str_strip line in
      if existsb (λ kv, String.eqb kv.1 choice) FILE_TYPES then (Ret choice, World rest tr)
      else read_choice rest (tr ++ [Stdout "Invalid choice. Please try again."])
  end.

(** [FILE_TYPES[choice]] *)
Definition file_type_of (choice : string) : exn + (option string * string) :=
  match List.find (λ kv, String.eqb kv.1 choice) FILE_TYPES with
  | Some kv => inr kv.2
  | None => inl (KeyError choice)
  end.

Section Main.
Context `{Fnmatch} `{SL : StrLib}.

(** Lines 237-263: from the menu to the final path list. *)
Definition select (env : Env) : IO (list string) :=
  print "Select file type to list:";;
  for_each FILE_TYPES
    (λ _ '(key, (_, description)), print (key +:+ ". " +:+ description)) ();;
  choice ← (λ w, read_choice (stdin w) (trace w));
  '(selected_type, description) ← call (file_type_of choice);
  print ("Listing " +:+ description);;
  all_files ← get_git_files env selected_type;
  let filtered_files := filter_files all_files SKIP_FILES SKIP_DIRS in
  let sorted_files := sort_files filtered_files in
  selected_files ← interactive_file_selection env sorted_files;
  for_each selected_files
    (λ final_files file,
       if Str.endswith file "/" then
         expanded ← expand_directory env file;
         mret (final_files ++ expanded)
       else mret (final_files ++ [file]))
    [].

Definition main (env : Env) : IO unit :=
  final_files ← select env;
  dispatch env final_files.
End Main.

(** ** Vocabulary of the properties and an example repository *)

(** The path contains a separator. *)
Fixpoint has_sep (s : string) : bool :=
  match s with
  | EmptyString => false
  | String c r => Ascii.eqb c Str.slash || has_sep r
  end.

(** Following the spec's words for an entry "file or directory alike": the
    final path segment of an entry, the trailing separator of a directory
    entry apart ([.github] for [.github/]). *)
Definition entry_name (p : string) : string := basename (Str.rstrip_slash p).


(** The exceptions of a [check_output] call that [except
    subprocess.CalledProcessError] handles: the call returns or the command
    exits with a non-zero status. *)
Definition returns_or_exits {A} (r : exn + A) : bool :=
  match r with
  | inr _ | inl (CalledProcessError _) => true
  | inl _ => false
  end.

(** The tracked files of the end-to-end example and what the lister, the
    filter with the configured skip-lists and the sorter make of them. *)
Definition tracked_example : list string :=
  ["a.py"; "b/__init__.py"; "b/x.py"; "node_modules/y.js"].


(** A repository at [/repo] whose listing and selector answer as given. *)
Definition repo_env (ls : exn + list string) (fzf : exn + (Z * string)) : Env :=
  {| git_ls_files := λ _, ls;
     git_toplevel := inr "/repo";
     run_fzf := λ _, fzf;
     run_aider := λ _, inr 0%Z;
     isdir := λ p, Str.endswith p "/";
     walk := λ _, [];
     abspath := λ p, path_join "/repo" p;
     relpath := λ p _, inr p |}.

(** ** Vocabulary of the further properties *)

(** The third component of [file_key]: the path up to and including its
    last separator. *)
Definition dir_prefix (file : string) : string :=
  String.concat "" (map (λ p, p +:+ "/") (removelast (Str.split Str.slash file))).

(** Python's [a == b] on keys, through the three-way comparison. *)
Definition py_eq {K} `{Cmp K} (a b : K) : bool :=
  match cmp a b with Eq => true | _ => false end.

(** Line 243: the line read is, stripped, a key of [FILE_TYPES]. *)
Definition valid_choice `{SL : StrLib} (line : string) : bool :=
  existsb (λ kv, String.eqb kv.1 (str_strip line)) FILE_TYPES.

(** What the menu loop writes for the rejected lines [bad]: a prompt and
    the complaint for each. *)
Definition retry_events (bad : list string) : list event :=
  flat_map (λ _, [Prompt "Enter your choice (1-8): ";
                  Stdout "Invalid choice. Please try again."]) bad.

(** Lines 258-263: the loop of [main] that expands the selected
    directories. *)
Definition expand_selected (env : Env) (selected_files : list string) : IO (list string) :=
  for_each selected_files
    (λ final_files file,
       if Str.endswith file "/" then
         expanded ← expand_directory env file;
         mret (final_files ++ expanded)
       else mret (final_files ++ [file]))
    [].

(** What one selected path stands for in the final list: itself, or for a
    directory entry the lines of its listing (none when the listing
    fails). *)
Definition expansion_of (env : Env) (file : string) : list string :=
  if Str.endswith file "/" then
    match git_ls_files env
            ["git"; "ls-files"; "--cached"; "--others"; "--exclude-standard";
             file +:+ "*"] with
    | inr lines => lines
    | inl _ => []
    end
  else [file].

(** The error line of a directory entry whose listing fails. *)
Definition expansion_errors (env : Env) (file : string) : list event :=
  if Str.endswith file "/" then
    match git_ls_files env
            ["git"; "ls-files"; "--cached"; "--others"; "--exclude-standard";
             file +:+ "*"] with
    | inr _ => []
    | inl _ => [Stderr ("Error finding files in " +:+ file)]
    end
  else [].

(** The computation leaves standard input and the trace as they are and
    does not call [sys.exit]. *)
Definition quiet {A} (m : IO A) : Prop :=
  ∀ w, (m w).2 = w ∧ ∀ code, (m w).1 ≠ SysExit code.

(** * Properties *)

(** ** Laws of the key orders *)

Global Instance nat_cmp_laws : CmpLaws nat.
Proof.
  split; unfold cmp, nat_cmp.
  - apply Nat.compare_eq_iff.
  - intros a b. apply Nat.compare_antisym.
  - intros a b c. rewrite !Nat.compare_lt_iff. lia.
Qed.

Global Instance bool_cmp_laws : CmpLaws bool.
Proof.
  split.
  - intros [] []; cbn; split; congruence.
  - intros [] []; reflexivity.
  - intros [] [] []; cbn; congruence.
Qed.

Lemma ascii_compare_eq (a b : ascii) : Ascii.compare a b = Eq ↔ a = b.
Proof.
  split; [apply Ascii.compare_eq_iff|].
  intros ->. unfold Ascii.compare. apply N.compare_refl.
Qed.

Lemma ascii_compare_lt_trans (a b c : ascii) :
  Ascii.compare a b = Lt → Ascii.compare b c = Lt → Ascii.compare a c = Lt.
Proof. unfold Ascii.compare. rewrite !N.compare_lt_iff. lia. Qed.

Lemma string_compare_lt_trans (a b c : string) :
  String.compare a b = Lt → String.compare b c = Lt → String.compare a c = Lt.
Proof.
  revert b c.
  induction a as [|x a IH]; intros [|y b] [|z c]; cbn; try congruence.
  destruct (Ascii.compare x y) eqn:Hxy; try congruence.
  - apply ascii_compare_eq in Hxy as ->.
    destruct (Ascii.compare y z); try congruence. apply IH.
  - destruct (Ascii.compare y z) eqn:Hyz; try congruence.
    + apply ascii_compare_eq in Hyz as ->. by rewrite Hxy.
    + by rewrite (ascii_compare_lt_trans _ _ _ Hxy Hyz).
Qed.

Global Instance string_cmp_laws : CmpLaws string.
Proof.
  split; unfold cmp, string_cmp.
  - intros a b. split; [apply String.compare_eq_iff|].
    intros ->. induction b as [|c b IH]; cbn; [done|].
    by rewrite (proj2 (ascii_compare_eq c c) eq_refl).
  - intros a b. apply String.compare_antisym.
  - apply string_compare_lt_trans.
Qed.

Global Instance pair_cmp_laws {A B} `{CmpLaws A, CmpLaws B} : CmpLaws (A * B).
Proof.
  split.
  - intros [a1 b1] [a2 b2]. unfold cmp, pair_cmp. cbn.
    destruct (cmp a1 a2) eqn:Ha.
    + apply cmp_eq in Ha as ->. rewrite cmp_eq. split; congruence.
    + split; [done|]. intros [= -> _].
      assert (cmp a2 a2 = Eq) by by apply cmp_eq. congruence.
    + split; [done|]. intros [= -> _].
      assert (cmp a2 a2 = Eq) by by apply cmp_eq. congruence.
  - intros [a1 b1] [a2 b2]. unfold cmp, pair_cmp. cbn.
    rewrite (cmp_antisym a1 a2). destruct (cmp a1 a2); cbn; [apply cmp_antisym|done..].
  - intros [a1 b1] [a2 b2] [a3 b3]. unfold cmp, pair_cmp. cbn.
    destruct (cmp a1 a2) eqn:H12; try done.
    + apply cmp_eq in H12 as ->. destruct (cmp a2 a3); try done. apply cmp_lt_trans.
    + intros _. destruct (cmp a2 a3) eqn:H23; try done.
      * apply cmp_eq in H23 as ->. by rewrite H12.
      * by rewrite (cmp_lt_trans _ _ _ H12 H23).
Qed.

Section Order.
Context {K : Type} `{CmpLaws K}.

Lemma py_lt_le (a b : K) : py_lt a b = true → py_le a b.
Proof.
  unfold py_le, py_lt. rewrite (cmp_antisym a b).
  by destruct (cmp a b).
Qed.

Lemma py_le_trans (a b c : K) : py_le a b → py_le b c → py_le a c.
Proof.
  unfold py_le, py_lt. intros Hab Hbc.
  destruct (cmp b a) eqn:Hba; try done.
  - apply cmp_eq in Hba as ->. done.
  - destruct (cmp c b) eqn:Hcb; try done.
    + apply cmp_eq in Hcb as ->. by rewrite Hba.
    + rewrite (cmp_antisym a c).
      assert (cmp a b = Lt) as H1 by (rewrite (cmp_antisym b a), Hba; done).
      assert (cmp b c = Lt) as H2 by (rewrite (cmp_antisym c b), Hcb; done).
      by rewrite (cmp_lt_trans _ _ _ H1 H2).
Qed.
End Order.

(** ** The stable sort *)

Section SortedFacts.
Context {A K : Type} `{CmpLaws K} (key : A → K).

Lemma insort_perm (x : A) (l : list A) : insort key x l ≡ₚ x :: l.
Proof.
  induction l as [|y l IH]; cbn; [done|].
  destruct (py_lt (key y) (key x)); [|done].
  rewrite IH. apply Permutation_swap.
Qed.

Lemma sorted_perm (l : list A) : sorted key l ≡ₚ l.
Proof.
  induction l as [|x l IH]; cbn; [done|].
  fold (sorted key l). by rewrite insort_perm, IH.
Qed.

Lemma insort_sorted (x : A) (l : list A) :
  StronglySorted (key_le key) l → StronglySorted (key_le key) (insort key x l).
Proof.
  induction 1 as [|y l Hl IH Hy]; cbn.
  - repeat constructor.
  - destruct (py_lt (key y) (key x)) eqn:Hlt.
    + constructor; [done|].
      rewrite insort_perm. constructor; [|done].
      by apply py_lt_le.
    + constructor; [by constructor|].
      constructor; [done|].
      eapply Forall_impl; [exact Hy|].
      intros z Hz. unfold key_le in *.
      apply (py_le_trans _ (key y)); [exact Hlt|exact Hz].
Qed.

Lemma sorted_sorted (l : list A) : StronglySorted (key_le key) (sorted key l).
Proof.
  induction l as [|x l IH]; cbn; [constructor|].
  by apply insort_sorted.
Qed.

(** A list already in key order is left as it is. *)
Lemma sorted_fixed (l : list A) : StronglySorted (key_le key) l → sorted key l = l.
Proof.
  induction 1 as [|x l Hl IH Hx]; cbn; [done|].
  fold (sorted key l). rewrite IH.
  destruct l as [|y l]; [done|]. cbn.
  apply Forall_cons in Hx as [Hxy _]. unfold key_le, py_le in Hxy.
  by rewrite Hxy.
Qed.

Lemma sorted_idemp (l : list A) : sorted key (sorted key l) = sorted key l.
Proof. apply sorted_fixed, sorted_sorted. Qed.

(** In a list in key order, a key strictly smaller is at a smaller
    index. *)
Lemma sorted_lookup_lt (l : list A) (i j : nat) (x y : A) :
  StronglySorted (key_le key) l →
  l !! i = Some x → l !! j = Some y →
  py_lt (key x) (key y) = true → i < j.
Proof.
  intros Hl. revert i j.
  induction Hl as [|z l Hl IH Hz]; intros i j Hi Hj Hlt; [done|].
  destruct i as [|i], j as [|j]; cbn in *.
  - injection Hi as ->. injection Hj as ->. unfold py_lt in Hlt.
    assert (cmp (key y) (key y) = Eq) as Heq by by apply cmp_eq.
    by rewrite Heq in Hlt.
  - lia.
  - injection Hj as ->. rewrite Forall_forall in Hz.
    assert (key_le key y x) as Hle.
    { apply Hz. eapply list_elem_of_lookup_2. exact Hi. }
    unfold key_le, py_le in Hle. congruence.
  - apply (proj1 (Nat.succ_lt_mono i j)). eauto.
Qed.
End SortedFacts.

(** ** Segments of a path *)

Lemma split_nonempty (sep : ascii) (s : string) : Str.split sep s ≠ [].
Proof.
  destruct s as [|c r]; cbn; [done|].
  destruct (Ascii.eqb c sep); [done|]. by destruct (Str.split sep r).
Qed.

Lemma split_no_sep (d : string) : has_sep d = false → Str.split Str.slash d = [d].
Proof.
  induction d as [|c d IH]; cbn; [done|].
  intros [Hc Hd]%orb_false_iff. rewrite Hc, (IH Hd). done.
Qed.

Lemma split_app_sep (d rest : string) :
  has_sep d = false →
  Str.split Str.slash (d +:+ "/" +:+ rest) = d :: Str.split Str.slash rest.
Proof.
  induction d as [|c d IH]; [done|]. cbn [has_sep].
  intros [Hc Hd]%orb_false_iff.
  change (String c d +:+ "/" +:+ rest) with (String c (d +:+ "/" +:+ rest)).
  cbn [Str.split]. rewrite Hc, (IH Hd). done.
Qed.

Lemma has_sep_decompose (f : string) :
  has_sep f = true → ∃ d rest, f = d +:+ "/" +:+ rest ∧ has_sep d = false.
Proof.
  induction f as [|c f IH]; cbn; [done|].
  destruct (Ascii.eqb c Str.slash) eqn:Hc; cbn.
  - apply Ascii.eqb_eq in Hc as ->. intros _. by exists "", f.
  - intros (d & rest & -> & Hd)%IH. exists (String c d), rest.
    cbn. by rewrite Hc.
Qed.

Lemma length_split_has_sep (f : string) :
  (1 <? length (Str.split Str.slash f)) = has_sep f.
Proof.
  destruct (has_sep f) eqn:Hf.
  - apply has_sep_decompose in Hf as (d & rest & -> & Hd).
    rewrite split_app_sep by done. cbn.
    pose proof (split_nonempty Str.slash rest).
    by destruct (Str.split Str.slash rest).
  - by rewrite split_no_sep.
Qed.

(** ** The sorter *)



(** C8: sorting the sorter's output again returns it unchanged. *)
Theorem sort_files_idempotent `{SL : StrLib} (files : list string) :
  sort_files (sort_files files) = sort_files files.
Proof. apply sorted_idemp. Qed.

(** C9: the sorter's output is a permutation of its input; every path
    occurs in it as many times as in the input. *)
Theorem sort_files_permutation `{SL : StrLib} (files : list string) :
  sort_files files ≡ₚ files ∧
  ∀ p, count_occ string_dec (sort_files files) p = count_occ string_dec files p.
Proof.
  assert (sort_files files ≡ₚ files) as Hp by apply sorted_perm.
  split; [done|]. intros p. by apply Permutation_count_occ.
Qed.

(** ** The filter *)

Example filter_files_configured :
  @filter_files glob_fnmatch
    ["b/"; "node_modules/"; ".git/"; "a.py"; "b/__init__.py"; "b/x.pyc"; ".env"; "src/.hidden"; "README.md"]
    SKIP_FILES SKIP_DIRS = ["b/"; "a.py"].
Proof. vm_compute. reflexivity. Qed.

Lemma list_filter_sublist {A} (f : A → bool) (l : list A) :
  List.filter f l `sublist_of` l.
Proof.
  induction l as [|x l IH]; cbn; [constructor|].
  destruct (f x); by constructor.
Qed.

Lemma list_filter_idemp {A} (f : A → bool) (l : list A) :
  List.filter f (List.filter f l) = List.filter f l.
Proof.
  induction l as [|x l IH]; cbn; [done|].
  destruct (f x) eqn:Hx; cbn; [|done]. by rewrite Hx, IH.
Qed.

Lemma elem_of_filter_files `{Fnmatch} (files pats dirs : list string) (p : string) :
  p ∈ filter_files files pats dirs ↔ p ∈ files ∧ should_keep pats dirs p = true.
Proof. unfold filter_files. rewrite !list_elem_of_In. apply filter_In. Qed.

(** A directory entry ends in an empty segment: its [os.path.basename] is
    empty, hence neither dotted nor matched by a pattern that needs a
    character. *)
Lemma split_dir_entry (p : string) :
  Str.endswith p "/" = true →
  ∃ x init, Str.split Str.slash p = x :: init ++ [""].
Proof.
  induction p as [|c r IH]; [done|].
  cbn [Str.endswith]. intros [Heq|Hr]%orb_true_iff.
  - apply String.eqb_eq in Heq as [= -> ->]. by exists "", [].
  - destruct (IH Hr) as (x & init & Hs). cbn [Str.split]. rewrite Hs.
    destruct (Ascii.eqb c Str.slash).
    + by exists "", (x :: init).
    + by exists (String c x), init.
Qed.

Lemma basename_dir_entry (p : string) :
  Str.endswith p "/" = true → basename p = "".
Proof.
  intros (x & init & Hs)%split_dir_entry. unfold basename. rewrite Hs.
  change (x :: init ++ [""]) with ((x :: init) ++ [""]). apply last_last.
Qed.

(** C2, as the code has it: a plain file path (no trailing separator) whose
    basename starts with a dot is never in the filter's output; a directory
    entry is exempt from the dot rule: it is in the output exactly when it
    is in the input and starts with none of the skip-dir prefixes. *)
Theorem filter_files_drops_dot_files `{Fnmatch} (files pats dirs : list string) :
  (∀ p, Str.endswith p "/" = false →
        Str.startswith (basename p) "." = true →
        p ∉ filter_files files pats dirs) ∧
  (∀ p, Str.endswith p "/" = true →
        (p ∈ filter_files files pats dirs ↔
         p ∈ files ∧ ∀ dir, dir ∈ dirs → Str.startswith p dir = false)).
Proof.
  split.
  - intros p Hfile Hdot [_ Hkeep]%elem_of_filter_files.
    unfold should_keep in Hkeep. by rewrite Hfile, Hdot in Hkeep.
  - intros p Hdir. rewrite elem_of_filter_files. unfold should_keep.
    rewrite Hdir, negb_true_iff, <- not_true_iff_false, existsb_exists.
    split; intros [Hin Hno]; (split; [done|]).
    + intros dir Hd. apply not_true_iff_false. intros Hp.
      apply Hno. exists dir. by rewrite <- list_elem_of_In.
    + intros (dir & Hd%list_elem_of_In & Hp). by rewrite (Hno dir Hd) in Hp.
Qed.

Lemma filter_files_drops_dot_files_witness :
  ".env" ∉ @filter_files glob_fnmatch [".env"; "a.py"] SKIP_FILES SKIP_DIRS.
Proof.
  apply (proj1 (@filter_files_drops_dot_files glob_fnmatch [".env"; "a.py"] SKIP_FILES SKIP_DIRS));
    reflexivity.
Defined.

(** C2 as stated fails: the directory entry [.github/], whose name starts
    with a dot, passes the filter with the configured skip-lists. *)
Lemma filter_keeps_dot_directory :
  ".github/" ∈ [".github/"; "a.py"] ∧
  Str.startswith (entry_name ".github/") "." = true ∧
  ".github/" ∈ @filter_files glob_fnmatch [".github/"; "a.py"] SKIP_FILES SKIP_DIRS.
Proof.
  split; [by left|]. split; [reflexivity|].
  apply elem_of_filter_files. split; [by left|reflexivity].
Qed.

(** C3, as the code has it: no plain file path (no trailing separator) in
    the filter's output has a basename matching one of the filename skip
    patterns; directory entries are not tested against these patterns. *)
Theorem filter_files_drops_pattern_files `{Fnmatch}
    (files pats dirs : list string) (p pattern : string) :
  p ∈ filter_files files pats dirs →
  Str.endswith p "/" = false →
  pattern ∈ pats →
  fnmatch (basename p) pattern = false.
Proof.
  intros [_ Hkeep]%elem_of_filter_files Hfile Hpat.
  unfold should_keep in Hkeep. rewrite Hfile in Hkeep.
  destruct (Str.startswith (basename p) "."); [done|].
  apply negb_true_iff in Hkeep. apply not_true_iff_false. intros Hm.
  apply not_true_iff_false in Hkeep. apply Hkeep, existsb_exists.
  exists pattern. by rewrite <- list_elem_of_In.
Qed.

Lemma filter_files_drops_pattern_files_witness :
  glob_fnmatch (basename "src/a.py") "*.pyc" = false.
Proof.
  apply (@filter_files_drops_pattern_files glob_fnmatch
           ["src/a.py"; "src/a.pyc"] SKIP_FILES SKIP_DIRS "src/a.py" "*.pyc").
  - apply elem_of_filter_files. split; [by left|reflexivity].
  - reflexivity.
  - unfold SKIP_FILES, CACHE_FILES. cbn. do 10 right. by left.
Defined.

(** C3 as stated fails: with the configured skip-lists the directory entry
    [web.cache/] passes the filter although its name matches the configured
    pattern [*.cache]; and with the pattern [*] the directory entry [b/]
    passes although its name, and its (empty) [os.path.basename] too,
    match. *)
Lemma filter_keeps_pattern_directory :
  ("web.cache/" ∈ @filter_files glob_fnmatch ["web.cache/"; "a.py"] SKIP_FILES SKIP_DIRS ∧
   "*.cache" ∈ SKIP_FILES ∧
   glob_fnmatch (entry_name "web.cache/") "*.cache" = true) ∧
  ("b/" ∈ @filter_files glob_fnmatch ["b/"] ["*"] [] ∧
   glob_fnmatch (entry_name "b/") "*" = true ∧
   glob_fnmatch (basename "b/") "*" = true).
Proof.
  repeat split; try reflexivity.
  - apply elem_of_filter_files. split; [by left|reflexivity].
  - unfold SKIP_FILES, CACHE_FILES. cbn. do 17 right. by left.
  - apply elem_of_filter_files. split; [by left|reflexivity].
Qed.

(** C10: the filter's output is a subsequence of its input, and filtering
    it again with the same skip-lists returns it unchanged. *)
Theorem filter_files_sublist_idempotent `{Fnmatch} (files pats dirs : list string) :
  filter_files files pats dirs `sublist_of` files ∧
  filter_files (filter_files files pats dirs) pats dirs = filter_files files pats dirs.
Proof.
  split; [apply list_filter_sublist|apply list_filter_idemp].
Qed.

(** ** Running the effects *)

(** Unfolds the monad and its primitives, so that a program applied to a
    world computes. *)
Ltac io_unfold :=
  unfold try_except, except_CalledProcessError, except_Exception,
    mbind, io_bind, mret, io_ret, call, raise, sys_exit, eprint, print, emit.

(** ** The file lister *)

Lemma has_sep_app_sep (d rest : string) : has_sep (d +:+ "/" +:+ rest) = true.
Proof.
  induction d as [|c d IH]; [done|].
  change (String c d +:+ "/" +:+ rest) with (String c (d +:+ "/" +:+ rest)).
  cbn [has_sep]. rewrite IH. apply orb_true_r.
Qed.

Lemma elem_of_top_dirs_fold (files : list string) (acc : gset string) (e : string) :
  e ∈ fold_left
        (λ acc file,
           let parts := Str.split Str.slash file in
           if 1 <? length parts then {[ hd "" parts +:+ "/" ]} ∪ acc else acc)
        files acc ↔
  e ∈ acc ∨ ∃ f, f ∈ files ∧ has_sep f = true ∧ e = hd "" (Str.split Str.slash f) +:+ "/".
Proof.
  revert acc. induction files as [|f files IH]; intros acc; cbn [fold_left].
  - split; [by left|]. intros [?|(f & Hf & _)]; [done|]. by apply elem_of_nil in Hf.
  - rewrite IH. cbv zeta. rewrite length_split_has_sep.
    destruct (has_sep f) eqn:Hf.
    + rewrite elem_of_union, elem_of_singleton. split.
      * intros [[->|?]|(f' & Hin & Hs & ->)]; [right|by left|right].
        -- exists f. split; [by left|done].
        -- exists f'. split; [by right|done].
      * intros [?|(f' & Hin & Hs & ->)]; [by left; right|].
        apply elem_of_cons in Hin as [->|Hin]; [by left; left|].
        right. by exists f'.
    + split.
      * intros [?|(f' & Hin & Hs & ->)]; [by left|right].
        exists f'. split; [by right|done].
      * intros [?|(f' & Hin & Hs & ->)]; [by left|].
        apply elem_of_cons in Hin as [->|Hin]; [congruence|].
        right. by exists f'.
Qed.

(** The synthetic entries are the [d/] for the first segments [d] of the
    listed paths that contain a separator. *)
Lemma elem_of_top_dirs (files : list string) (e : string) :
  e ∈ top_dirs files ↔
  ∃ d rest, has_sep d = false ∧ (d +:+ "/" +:+ rest) ∈ files ∧ e = d +:+ "/".
Proof.
  unfold top_dirs. rewrite elem_of_top_dirs_fold. split.
  - intros [Hin|(f & Hin & Hs & ->)]; [by apply not_elem_of_empty in Hin|].
    apply has_sep_decompose in Hs as (d & rest & -> & Hd).
    exists d, rest. by rewrite split_app_sep.
  - intros (d & rest & Hd & Hin & ->). right.
    exists (d +:+ "/" +:+ rest). rewrite has_sep_app_sep, split_app_sep by done.
    done.
Qed.

(** Line 92 only reorders, whatever the iteration order of the set. *)
Lemma all_entries_perm `{SL : StrLib} (dirs files : list string) :
  all_entries dirs files ≡ₚ files ++ dirs.
Proof. unfold all_entries. rewrite sorted_perm. apply Permutation_app_comm. Qed.

(** C7: when the listing returns [files], the lister returns a list made of
    every listed path and of the synthetic entries: one [d/], once, for each
    top-level directory [d] (a separator-free [d] with [d/...] listed), and
    nothing else. *)
Theorem get_git_files_entries `{SL : StrLib} (env : Env) (file_type : option string)
    (files : list string) (w : world) :
  git_ls_files env (git_ls_cmd file_type) = inr files →
  ∃ entries dirs,
    get_git_files env file_type w = (Ret entries, w) ∧
    entries ≡ₚ files ++ dirs ∧
    NoDup dirs ∧
    ∀ e, e ∈ dirs ↔
         ∃ d rest, has_sep d = false ∧ (d +:+ "/" +:+ rest) ∈ files ∧ e = d +:+ "/".
Proof.
  intros Hls.
  exists (all_entries (elements (top_dirs files)) files), (elements (top_dirs files)).
  split; [|split; [|split]].
  - unfold get_git_files. io_unfold. by rewrite Hls.
  - apply all_entries_perm.
  - apply NoDup_elements.
  - intros e. rewrite elem_of_elements. apply elem_of_top_dirs.
Qed.

(** C5: when the listing command errors, the lister prints the error to the
    error stream and exits with status 1; nothing that follows the lister
    runs. *)
Theorem get_git_files_listing_error `{SL : StrLib} (env : Env) (file_type : option string)
    (msg : string) (w : world) :
  git_ls_files env (git_ls_cmd file_type) = inl (CalledProcessError msg) →
  let w' := World (stdin w) (trace w ++ [Stderr ("Error retrieving Git files: " +:+ msg)]) in
  get_git_files env file_type w = (SysExit 1%Z, w') ∧
  ∀ (B : Type) (k : list string → IO B),
    (get_git_files env file_type ≫= k) w = (SysExit 1%Z, w').
Proof.
  intros Hls w'.
  assert (get_git_files env file_type w = (SysExit 1%Z, w')) as Hget.
  { unfold get_git_files. io_unfold. by rewrite Hls. }
  split; [done|]. intros B k. io_unfold. by rewrite Hget.
Qed.

Lemma get_git_files_entries_witness :
  ∃ entries dirs,
    get_git_files (SL:=ascii_strlib)
      (repo_env (inr tracked_example) (inr (0%Z, "a.py"))) None (World [] [])
      = (Ret entries, World [] []) ∧
    entries ≡ₚ tracked_example ++ dirs ∧
    NoDup dirs ∧
    ∀ e, e ∈ dirs ↔
         ∃ d rest, has_sep d = false ∧ (d +:+ "/" +:+ rest) ∈ tracked_example ∧ e = d +:+ "/".
Proof.
  apply (get_git_files_entries (repo_env (inr tracked_example) (inr (0%Z, "a.py")))
           None tracked_example (World [] [])).
  reflexivity.
Defined.

Lemma get_git_files_listing_error_witness :
  get_git_files (SL:=ascii_strlib)
    (repo_env (inl (CalledProcessError "returned non-zero exit status 128.")) (inr (0%Z, "")))
    (Some "py") (World [] [])
  = (SysExit 1%Z,
     World [] [Stderr "Error retrieving Git files: returned non-zero exit status 128."]).
Proof.
  apply (get_git_files_listing_error
           (repo_env (inl (CalledProcessError "returned non-zero exit status 128."))
                     (inr (0%Z, "")))
           (Some "py") "returned non-zero exit status 128." (World [] [])).
  reflexivity.
Defined.

(** ** The interactive selector adapter *)

(** C4, as the code has it: when the selector runs and exits with a non-zero
    status, the selection is the empty list and the program goes on with it;
    when the selector cannot be run, the selection prints an error to the
    error stream and the program exits with status 1. *)
Theorem interactive_file_selection_failure `{SL : StrLib} (env : Env) (files : list string) (w : world) :
  returns_or_exits (git_toplevel env) = true →
  (∀ rc out,
     run_fzf env (Str.join (String Str.newline "") files) = inr (rc, out) →
     rc ≠ 0%Z →
     interactive_file_selection env files w = (Ret [], w) ∧
     ∀ (B : Type) (k : list string → IO B),
       (interactive_file_selection env files ≫= k) w = k [] w) ∧
  (∀ e,
     run_fzf env (Str.join (String Str.newline "") files) = inl e →
     let w' := World (stdin w) (trace w ++ [Stderr ("Error running fzf: " +:+ exn_str e)]) in
     interactive_file_selection env files w = (SysExit 1%Z, w') ∧
     ∀ (B : Type) (k : list string → IO B),
       (interactive_file_selection env files ≫= k) w = (SysExit 1%Z, w')).
Proof.
  intros Hroot. split.
  - intros rc out Hfzf Hrc.
    assert (interactive_file_selection env files w = (Ret [], w)) as Hsel.
    { unfold interactive_file_selection. io_unfold.
      destruct (git_toplevel env) as [[]|root]; try done; cbn;
        rewrite Hfzf; cbn; by destruct (Z.eqb_spec rc 0). }
    split; [done|]. intros B k. io_unfold. by rewrite Hsel.
  - intros e Hfzf w'.
    assert (interactive_file_selection env files w = (SysExit 1%Z, w')) as Hsel.
    { unfold interactive_file_selection. io_unfold.
      destruct (git_toplevel env) as [[]|root]; try done; cbn;
        by rewrite Hfzf. }
    split; [done|]. intros B k. io_unfold. by rewrite Hsel.
Qed.

Lemma interactive_file_selection_failure_witness :
  interactive_file_selection (SL:=ascii_strlib)
    (repo_env (inr tracked_example) (inr (130%Z, ""))) ["a.py"] (World [] [])
  = (Ret [], World [] []).
Proof.
  apply (proj1 (interactive_file_selection_failure
                  (repo_env (inr tracked_example) (inr (130%Z, ""))) ["a.py"] (World [] [])
                  eq_refl) 130%Z "").
  - reflexivity.
  - lia.
Defined.

(** C4 as stated fails: when fzf cannot be started the selection does not
    yield the empty list; it prints an error and the program, here [main]
    after the choice [1], exits with status 1. *)
Lemma interactive_file_selection_cannot_run :
  let env := repo_env (inr tracked_example) (inl (OSError "No such file or directory: 'fzf'")) in
  interactive_file_selection (SL:=ascii_strlib) env ["a.py"] (World [] [])
    = (SysExit 1%Z, World [] [Stderr "Error running fzf: No such file or directory: 'fzf'"]) ∧
  (@main glob_fnmatch ascii_strlib env (World ["1"] [])).1 = SysExit 1%Z.
Proof. vm_compute. done. Qed.

(** ** The command assembler *)






(** ** Two runs of [main] *)

(** The selector is left with a non-zero status: no command is built and
    the program exits with status 0. *)
Example main_selector_aborted :
  @main glob_fnmatch ascii_strlib (repo_env (inr tracked_example) (inr (130%Z, ""))) (World ["9"; " 1 "] [])
  = (SysExit 0%Z,
     World []
       [Stdout "Select file type to list:"; Stdout "1. Python files";
        Stdout "2. C files"; Stdout "3. C++ files"; Stdout "4. Rust files";
        Stdout "5. JavaScript files"; Stdout "6. TypeScript files";
        Stdout "7. Shell scripts"; Stdout "8. All files";
        Prompt "Enter your choice (1-8): ";
        Stdout "Invalid choice. Please try again.";
        Prompt "Enter your choice (1-8): ";
        Stdout "Listing Python files";
        Stdout "No files selected. Exiting."]).
Proof. vm_compute. reflexivity. Qed.

(** Two files are selected and the command is confirmed. *)
Example main_runs_command :
  let out := String.concat (String Str.newline "") ["b/x.py"; "a.py"; ""] in
  trace (@main glob_fnmatch ascii_strlib (repo_env (inr tracked_example) (inr (0%Z, out)))
           (World ["1"; "YES"] [])).2
  = [Stdout "Select file type to list:"; Stdout "1. Python files";
     Stdout "2. C files"; Stdout "3. C++ files"; Stdout "4. Rust files";
     Stdout "5. JavaScript files"; Stdout "6. TypeScript files";
     Stdout "7. Shell scripts"; Stdout "8. All files";
     Prompt "Enter your choice (1-8): ";
     Stdout "Listing Python files";
     Stdout "Generated Aider command:";
     Stdout "aider --file a.py --file b/x.py";
     Prompt "Do you want to execute this command? (yes/no): ";
     Exec ["aider"; "--file"; "a.py"; "--file"; "b/x.py"]].
Proof. vm_compute. reflexivity. Qed.

(** * Further properties *)

(** ** The stable sort, continued *)

Section StableSort.
Context {A K : Type} `{CmpLaws K} (key : A → K).

Lemma py_lt_irrefl (a : K) : py_lt a a = false.
Proof.
  unfold py_lt. assert (cmp a a = Eq) as -> by by apply cmp_eq. done.
Qed.

Lemma py_eq_true (a b : K) : py_eq a b = true ↔ a = b.
Proof.
  unfold py_eq. split.
  - destruct (cmp a b) eqn:Hc; try done. intros _. by apply cmp_eq.
  - intros ->. assert (cmp b b = Eq) as -> by by apply cmp_eq. done.
Qed.

Lemma py_le_antisym (a b : K) : py_le a b → py_le b a → a = b.
Proof.
  unfold py_le, py_lt. rewrite (cmp_antisym a b). intros Hab Hba.
  apply cmp_eq. by destruct (cmp a b).
Qed.

Lemma sorted_lookup_le (l : list A) (i j : nat) (x y : A) :
  StronglySorted (key_le key) l →
  i < j → l !! i = Some x → l !! j = Some y → key_le key x y.
Proof.
  intros Hl. revert i j.
  induction Hl as [|z l Hl IH Hz]; intros i j Hij Hi Hj; [done|].
  destruct j as [|j]; [lia|]. destruct i as [|i]; cbn in *.
  - injection Hi as ->. rewrite Forall_forall in Hz.
    apply Hz. eapply list_elem_of_lookup_2. exact Hj.
  - apply (IH i j); [lia|done..].
Qed.

Lemma insort_head (x : A) (m : list A) :
  Forall (key_le key x) m → insort key x m = x :: m.
Proof.
  destruct 1 as [|z m Hz _]; cbn; [done|].
  unfold key_le, py_le in Hz. by rewrite Hz.
Qed.

Lemma Forall_list_filter (P : A → Prop) (f : A → bool) (l : list A) :
  Forall P l → Forall P (List.filter f l).
Proof.
  induction 1 as [|x l Hx _ IH]; cbn; [constructor|].
  destruct (f x); [by constructor|done].
Qed.

Lemma filter_insort (f : A → bool) (x : A) (l : list A) :
  StronglySorted (key_le key) l →
  List.filter f (insort key x l)
  = if f x then insort key x (List.filter f l) else List.filter f l.
Proof.
  induction 1 as [|y l Hl IH Hy]; cbn.
  - by destruct (f x).
  - destruct (py_lt (key y) (key x)) eqn:Hlt; cbn.
    + rewrite IH. destruct (f x), (f y); cbn; by rewrite ?Hlt.
    + destruct (f x) eqn:Hx; [|done].
      symmetry. apply insort_head.
      apply (Forall_list_filter _ f (y :: l)). constructor; [exact Hlt|].
      eapply Forall_impl; [exact Hy|]. intros z Hz. unfold key_le in *.
      apply (py_le_trans _ (key y)); [exact Hlt|exact Hz].
Qed.

(** Filtering the sorted list is sorting the filtered list. *)
Lemma sorted_filter (f : A → bool) (l : list A) :
  sorted key (List.filter f l) = List.filter f (sorted key l).
Proof.
  induction l as [|x l IH]; cbn; [done|]. fold (sorted key l).
  rewrite filter_insort by apply sorted_sorted.
  destruct (f x); cbn; by rewrite <- IH.
Qed.

Lemma filter_key_insort (k : K) (x : A) (l : list A) :
  List.filter (λ y, py_eq k (key y)) (insort key x l)
  = List.filter (λ y, py_eq k (key y)) (x :: l).
Proof.
  induction l as [|y l IH]; [done|]. cbn [insort].
  destruct (py_lt (key y) (key x)) eqn:Hlt; [|done].
  cbn [List.filter] in *. rewrite IH.
  destruct (py_eq k (key y)) eqn:Hy; [|done].
  destruct (py_eq k (key x)) eqn:Hx; [|done].
  apply py_eq_true in Hx, Hy. rewrite <- Hx, <- Hy, py_lt_irrefl in Hlt. done.
Qed.

(** The elements of one key keep their order. *)
Lemma sorted_stable (k : K) (l : list A) :
  List.filter (λ y, py_eq k (key y)) (sorted key l)
  = List.filter (λ y, py_eq k (key y)) l.
Proof.
  induction l as [|x l IH]; [done|]. cbn [sorted foldr]. fold (sorted key l).
  rewrite filter_key_insort. cbn [List.filter]. by rewrite IH.
Qed.

(** With pairwise distinct keys the result depends on the elements only. *)
Lemma sorted_perm_unique (l l' : list A) :
  (∀ x y, x ∈ l → y ∈ l → key x = key y → x = y) →
  l ≡ₚ l' → sorted key l = sorted key l'.
Proof.
  intros Hinj Hp.
  apply (StronglySorted_unique_strong (key_le key)).
  - intros x y Hx Hy Hxy Hyx. apply Hinj.
    + by rewrite sorted_perm in Hx.
    + by rewrite sorted_perm, <- Hp in Hy.
    + by apply py_le_antisym.
  - apply sorted_sorted.
  - apply sorted_sorted.
  - by rewrite !sorted_perm.
Qed.
End StableSort.


(** ** Segments of a path, continued *)

Lemma string_app_cons (c : ascii) (a b : string) :
  String c a +:+ b = String c (a +:+ b).
Proof. reflexivity. Qed.

Lemma string_app_nil_r (s : string) : s +:+ "" = s.
Proof.
  induction s as [|c s IH]; [done|]. by rewrite string_app_cons, IH.
Qed.

Lemma string_app_assoc (a b c : string) : (a +:+ b) +:+ c = a +:+ b +:+ c.
Proof.
  induction a as [|x a IH]; [done|]. by rewrite !string_app_cons, IH.
Qed.

Lemma concat_empty_cons (x : string) (l : list string) :
  String.concat "" (x :: l) = x +:+ String.concat "" l.
Proof. destruct l; [symmetry; apply string_app_nil_r|reflexivity]. Qed.

Lemma file_key_components `{SL : StrLib} (file : string) :
  file_key file
  = (length (Str.split Str.slash file), negb (Str.endswith file "/"),
     dir_prefix file, str_lower (basename file)).
Proof. reflexivity. Qed.

(** The directory prefix and the final segment make up the path. *)
Lemma dir_prefix_basename (s : string) : dir_prefix s +:+ basename s = s.
Proof.
  unfold dir_prefix, basename.
  induction s as [|c r IH]; [done|]. cbn [Str.split].
  pose proof (split_nonempty Str.slash r) as Hne.
  destruct (Str.split Str.slash r) as [|p ps] eqn:Hs; [done|].
  destruct (Ascii.eqb c Str.slash) eqn:Hc.
  - apply Ascii.eqb_eq in Hc as ->.
    change (removelast ("" :: p :: ps)) with ("" :: removelast (p :: ps)).
    change (List.last ("" :: p :: ps) "") with (List.last (p :: ps) "").
    cbn [map]. rewrite concat_empty_cons.
    change ("" +:+ "/") with "/". rewrite !string_app_cons.
    change ("" +:+ ?x) with x. by rewrite IH.
  - destruct ps as [|q qs].
    + cbn [removelast map List.last] in *. change (String.concat "" []) with "" in *.
      change ("" +:+ p) with p in IH. by rewrite IH.
    + change (removelast (String c p :: q :: qs))
        with (String c p :: removelast (q :: qs)).
      change (List.last (String c p :: q :: qs) "") with (List.last (q :: qs) "").
      change (removelast (p :: q :: qs)) with (p :: removelast (q :: qs)) in IH.
      change (List.last (p :: q :: qs) "") with (List.last (q :: qs) "") in IH.
      cbn [map] in *. rewrite concat_empty_cons in *.
      rewrite !string_app_cons. by rewrite IH.
Qed.

Lemma split_segments_no_sep (s p : string) :
  p ∈ Str.split Str.slash s → has_sep p = false.
Proof.
  revert p. induction s as [|c r IH]; intros p; cbn [Str.split].
  - by intros ->%list_elem_of_singleton.
  - destruct (Ascii.eqb c Str.slash) eqn:Hc.
    + intros [->|Hp]%elem_of_cons; [done|by apply IH].
    + pose proof (split_nonempty Str.slash r) as Hne.
      destruct (Str.split Str.slash r) as [|q qs]; [done|].
      intros [->|Hp]%elem_of_cons.
      * cbn. rewrite Hc. apply IH. by left.
      * apply IH. by right.
Qed.

Lemma basename_no_sep (s : string) : has_sep (basename s) = false.
Proof.
  apply (split_segments_no_sep s). unfold basename.
  destruct (exists_last (split_nonempty Str.slash s)) as (init & a & ->).
  rewrite last_last. apply elem_of_app. right. by left.
Qed.

(** Text without a separator, appended to a path, extends its final
    segment. *)
Lemma split_app_last (s name : string) :
  has_sep name = false →
  Str.split Str.slash (s +:+ name)
  = removelast (Str.split Str.slash s) ++ [basename s +:+ name].
Proof.
  intros Hname. unfold basename.
  induction s as [|c r IH].
  { change (Str.split Str.slash name = [name]). by apply split_no_sep. }
  rewrite string_app_cons. cbn [Str.split]. rewrite IH.
  pose proof (split_nonempty Str.slash r) as Hne.
  destruct (Str.split Str.slash r) as [|p ps]; [done|].
  destruct (Ascii.eqb c Str.slash); [done|].
  destruct ps as [|q qs]; done.
Qed.

Lemma endswith_app (s a : string) :
  a ≠ "" → Str.endswith (s +:+ a) "/" = Str.endswith a "/".
Proof.
  intros Ha. induction s as [|c r IH]; [done|].
  rewrite string_app_cons. cbn [Str.endswith]. rewrite IH.
  destruct (String.eqb_spec (String c (r +:+ a)) "/") as [[= _ Heq]|_]; [|done].
  destruct r; [|done]. by destruct a.
Qed.

Lemma endswith_no_sep (a : string) : has_sep a = false → Str.endswith a "/" = false.
Proof.
  induction a as [|c a IH]; [done|]. cbn [has_sep Str.endswith].
  intros [Hc Ha]%orb_false_iff. rewrite (IH Ha), orb_false_r.
  apply String.eqb_neq. intros [= -> _]. done.
Qed.

(** The key of a plain file [name] in the directory [dir], where [dir] is
    empty or ends with a separator. *)
Lemma file_key_in_dir `{SL : StrLib} (dir name : string) :
  basename dir = "" → has_sep name = false → name ≠ "" →
  file_key (dir +:+ name)
  = (length (Str.split Str.slash dir), true, dir_prefix dir, str_lower name).
Proof.
  intros Hdir Hname Hne. rewrite file_key_components.
  unfold dir_prefix at 1, basename at 1.
  rewrite split_app_last, Hdir by done. change ("" +:+ name) with name.
  rewrite removelast_last, last_last, length_app, endswith_app by done.
  rewrite endswith_no_sep by done. cbn [length negb].
  pose proof (split_nonempty Str.slash dir) as Hs.
  destruct (exists_last Hs) as (init & a & Heq). unfold dir_prefix. rewrite Heq.
  rewrite removelast_last, length_app. done.
Qed.

(** ** The sorter, continued *)

Lemma file_key_shallower_lt `{SL : StrLib} (x y : string) :
  length (Str.split Str.slash x) < length (Str.split Str.slash y) →
  py_lt (file_key x) (file_key y) = true.
Proof.
  intros Hlen. unfold py_lt, file_key, cmp, pair_cmp; cbn.
  unfold cmp, pair_cmp; cbn. unfold cmp, pair_cmp; cbn. unfold nat_cmp.
  apply Nat.compare_lt_iff in Hlen. by rewrite Hlen.
Qed.

Lemma split_app_slash (s : string) :
  Str.split Str.slash (s +:+ "/") = Str.split Str.slash s ++ [""].
Proof.
  induction s as [|c r IH]; [done|].
  rewrite string_app_cons. cbn [Str.split]. rewrite IH.
  pose proof (split_nonempty Str.slash r) as Hne.
  destruct (Str.split Str.slash r) as [|p ps]; [done|].
  by destruct (Ascii.eqb c Str.slash).
Qed.

(** The defect behind C1: the trailing separator of a directory entry
    counts as one more segment, so in one parent directory [dir] (empty or
    ending with a separator) every plain file [dir a] comes before every
    directory entry [dir b /], whatever the names, against the docstring
    "directories prioritized at every level". *)
Lemma sort_files_sibling_file_first `{SL : StrLib}
    (files : list string) (dir a b : string) (i j : nat) :
  dir = "" ∨ Str.endswith dir "/" = true →
  has_sep a = false → has_sep b = false →
  sort_files files !! i = Some (dir +:+ a) →
  sort_files files !! j = Some (dir +:+ b +:+ "/") →
  i < j.
Proof.
  intros Hdir Ha Hb Hi Hj.
  assert (basename dir = "") as Hbase.
  { destruct Hdir as [->|Hdir]; [done|by apply basename_dir_entry]. }
  eapply (sorted_lookup_lt file_key); [apply sorted_sorted|exact Hi|exact Hj|].
  apply file_key_shallower_lt.
  rewrite <- string_app_assoc, split_app_slash, !split_app_last by done.
  rewrite !length_app. cbn. lia.
Qed.

Example sort_files_sibling_file_first_example :
  @sort_files ascii_strlib ["src/pkg/"; "src/z.py"; "b/"; "a.py"]
  = ["a.py"; "b/"; "src/z.py"; "src/pkg/"].
Proof. vm_compute. reflexivity. Qed.

(** X2: an entry with fewer [/]-separated segments comes before every entry
    with more. *)
Theorem sort_files_shallower_first `{SL : StrLib} (files : list string) (i j : nat) (x y : string) :
  length (Str.split Str.slash x) < length (Str.split Str.slash y) →
  sort_files files !! i = Some x →
  sort_files files !! j = Some y →
  i < j.
Proof.
  intros Hlen Hi Hj.
  eapply (sorted_lookup_lt file_key); [apply sorted_sorted|exact Hi|exact Hj|].
  by apply file_key_shallower_lt.
Qed.

Lemma sort_files_shallower_first_witness : 0 < 1.
Proof.
  apply (sort_files_shallower_first (SL:=ascii_strlib) ["a/b/"; "z.py"] 0 1 "z.py" "a/b/");
    [cbn; lia|reflexivity..].
Defined.

(** X3: the sort is stable: the entries of one key (the same directory
    prefix and kind, and the same final segment up to letter case) keep the
    order they have in the input. *)
Theorem sort_files_stable `{SL : StrLib} (files : list string) (p : string) :
  List.filter (λ x, py_eq (file_key p) (file_key x)) (sort_files files)
  = List.filter (λ x, py_eq (file_key p) (file_key x)) files.
Proof. apply (sorted_stable file_key). Qed.

(** X4: filtering and sorting commute: sorting the filtered list, as [main]
    does, gives the filtered sorted list. *)
Theorem sort_files_filter_files_commute `{Fnmatch} `{SL : StrLib} (files pats dirs : list string) :
  sort_files (filter_files files pats dirs)
  = filter_files (sort_files files) pats dirs.
Proof. apply (sorted_filter file_key). Qed.

Lemma file_key_eq_split `{SL : StrLib} (x y : string) :
  file_key x = file_key y →
  ∃ d a b, x = d +:+ a ∧ y = d +:+ b ∧
           has_sep a = false ∧ has_sep b = false ∧
           str_lower a = str_lower b.
Proof.
  rewrite !file_key_components. intros [= _ _ Hd Hb].
  exists (dir_prefix x), (basename x), (basename y).
  rewrite dir_prefix_basename, Hd, dir_prefix_basename.
  by rewrite !basename_no_sep.
Qed.

(** X6: two entries with the same key lie under the same directory prefix
    and their final segments differ at most in letter case. *)
Theorem file_key_eq_case `{SL : StrLib} (x y : string) :
  file_key x = file_key y →
  ∃ d a b, x = d +:+ a ∧ y = d +:+ b ∧
           has_sep a = false ∧ has_sep b = false ∧
           str_lower a = str_lower b.
Proof. apply file_key_eq_split. Qed.

Lemma file_key_eq_case_witness :
  ∃ d a b, "src/Main.py" = d +:+ a ∧ "src/main.py" = d +:+ b ∧
           has_sep a = false ∧ has_sep b = false ∧
           Str.lower a = Str.lower b.
Proof.
  apply (file_key_eq_case (SL:=ascii_strlib) "src/Main.py" "src/main.py").
  reflexivity.
Defined.

Lemma NoDup_map_inj {A B} (f : A → B) (l : list A) (x y : A) :
  NoDup (map f l) → x ∈ l → y ∈ l → f x = f y → x = y.
Proof.
  induction l as [|z l IH]; cbn; [by intros _ ?%elem_of_nil|].
  intros [Hz Hl]%NoDup_cons [->|Hx]%elem_of_cons [->|Hy]%elem_of_cons Hf; [done|..].
  - destruct Hz. rewrite Hf. by apply (list_elem_of_fmap_2 f).
  - destruct Hz. rewrite <- Hf. by apply (list_elem_of_fmap_2 f).
  - by apply IH.
Qed.

(** X5: on entries with pairwise distinct sort keys, the sorter's output
    depends on the set of entries only, not on their order in the input. *)
Theorem sort_files_order_independent `{SL : StrLib} (files files' : list string) :
  NoDup (map file_key files) →
  files ≡ₚ files' →
  sort_files files = sort_files files'.
Proof.
  intros Hnd Hp. apply (sorted_perm_unique file_key); [|done].
  intros x y Hx Hy Hkey. by apply (NoDup_map_inj file_key files).
Qed.

Lemma sort_files_order_independent_witness :
  @sort_files ascii_strlib ["b/x.py"; "a.py"; "b/"]
  = @sort_files ascii_strlib ["b/"; "b/x.py"; "a.py"].
Proof.
  apply sort_files_order_independent.
  - vm_compute. repeat constructor; rewrite ?elem_of_cons, ?elem_of_nil;
      intuition congruence.
  - change ["b/x.py"; "a.py"; "b/"] with (["b/x.py"; "a.py"] ++ ["b/"]).
    apply Permutation_app_comm.
Defined.

(** X7: plain files of one directory are listed by name, letter case
    ignored: in [dir], empty or ending with a separator, the file whose
    lowercased name is smaller comes first. *)
Theorem sort_files_same_directory_by_name `{SL : StrLib}
    (files : list string) (dir a b : string) (i j : nat) :
  dir = "" ∨ Str.endswith dir "/" = true →
  has_sep a = false → a ≠ "" →
  has_sep b = false → b ≠ "" →
  py_lt (str_lower a) (str_lower b) = true →
  sort_files files !! i = Some (dir +:+ a) →
  sort_files files !! j = Some (dir +:+ b) →
  i < j.
Proof.
  intros Hdir Ha Hane Hb Hbne Hlt Hi Hj.
  assert (basename dir = "") as Hbase.
  { destruct Hdir as [->|Hdir]; [done|by apply basename_dir_entry]. }
  eapply (sorted_lookup_lt file_key); [apply sorted_sorted|exact Hi|exact Hj|].
  rewrite !file_key_in_dir by done.
  unfold py_lt, cmp, pair_cmp in *; cbn.
  unfold cmp, pair_cmp; cbn. unfold cmp, pair_cmp; cbn.
  unfold nat_cmp. rewrite Nat.compare_refl. cbn.
  assert (string_cmp (dir_prefix dir) (dir_prefix dir) = Eq) as ->
    by by apply (cmp_eq (K:=string)).
  done.
Qed.

Lemma sort_files_same_directory_by_name_witness : 0 < 1.
Proof.
  apply (sort_files_same_directory_by_name (SL:=ascii_strlib)
           ["src/b.py"; "src/Alpha.py"] "src/" "Alpha.py" "b.py" 0 1);
    try reflexivity; try discriminate. by right.
Defined.

(** ** The filter, continued *)

(** X8: a plain file path (no trailing separator) is in the filter's output
    exactly when it is in the input, its basename does not start with a dot
    and matches none of the filename patterns; the skip-dir prefixes play no
    part, so a file inside a skipped directory is kept. *)
Theorem filter_files_plain_file `{Fnmatch} (files pats dirs : list string) (p : string) :
  Str.endswith p "/" = false →
  (p ∈ filter_files files pats dirs ↔
   p ∈ files ∧
   Str.startswith (basename p) "." = false ∧
   ∀ pattern, pattern ∈ pats → fnmatch (basename p) pattern = false).
Proof.
  intros Hfile. rewrite elem_of_filter_files. unfold should_keep. rewrite Hfile.
  destruct (Str.startswith (basename p) "."); [intuition congruence|].
  rewrite negb_true_iff, <- not_true_iff_false, existsb_exists.
  split; intros [Hin Hno]; (split; [done|]).
  - split; [done|]. intros pattern Hp. apply not_true_iff_false. intros Hm.
    apply Hno. exists pattern. by rewrite <- list_elem_of_In.
  - destruct Hno as [_ Hno]. intros (pattern & Hp%list_elem_of_In & Hm).
    by rewrite (Hno pattern Hp) in Hm.
Qed.

Lemma filter_files_plain_file_witness :
  "node_modules/y.js" ∈ @filter_files glob_fnmatch tracked_example SKIP_FILES SKIP_DIRS ↔
  "node_modules/y.js" ∈ tracked_example ∧
  Str.startswith (basename "node_modules/y.js") "." = false ∧
  ∀ pattern, pattern ∈ SKIP_FILES →
    glob_fnmatch (basename "node_modules/y.js") pattern = false.
Proof.
  apply (@filter_files_plain_file glob_fnmatch tracked_example SKIP_FILES SKIP_DIRS
           "node_modules/y.js").
  reflexivity.
Defined.

(** ** The file lister, continued *)

Lemma get_git_files_ret `{SL : StrLib} (env : Env) (file_type : option string) (w w' : world)
    (entries : list string) :
  get_git_files env file_type w = (Ret entries, w') →
  ∃ files, git_ls_files env (git_ls_cmd file_type) = inr files ∧
           entries = all_entries (elements (top_dirs files)) files ∧ w' = w.
Proof.
  unfold get_git_files. io_unfold.
  destruct (git_ls_files env (git_ls_cmd file_type)) as [[]|files]; cbn;
    intros [= <- <-]; eauto.
Qed.

(** X9: in the lister's result every directory entry (trailing separator)
    comes before every plain path. *)
Theorem get_git_files_dirs_first `{SL : StrLib} (env : Env) (file_type : option string)
    (w w' : world) (entries : list string) (i j : nat) (d f : string) :
  get_git_files env file_type w = (Ret entries, w') →
  Str.endswith d "/" = true →
  Str.endswith f "/" = false →
  entries !! i = Some d →
  entries !! j = Some f →
  i < j.
Proof.
  intros (files & _ & -> & _)%get_git_files_ret Hd Hf Hi Hj.
  eapply (sorted_lookup_lt entry_key); [apply sorted_sorted|exact Hi|exact Hj|].
  unfold py_lt, entry_key, cmp, pair_cmp; cbn. by rewrite Hd, Hf.
Qed.

Lemma get_git_files_dirs_first_witness : 0 < 2.
Proof.
  apply (get_git_files_dirs_first (SL:=ascii_strlib)
           (repo_env (inr tracked_example) (inr (0%Z, ""))) None
           (World [] []) (World [] [])
           ["b/"; "node_modules/"; "a.py"; "b/__init__.py"; "b/x.py"; "node_modules/y.js"]
           0 2 "b/" "a.py");
    reflexivity.
Defined.

(** X10: a failure of the listing other than a non-zero exit (git cannot be
    started) is not handled by the lister: the exception is raised to the
    caller, nothing is printed and nothing that follows the lister runs. *)
Theorem get_git_files_unhandled `{SL : StrLib} (env : Env) (file_type : option string)
    (e : exn) (w : world) :
  git_ls_files env (git_ls_cmd file_type) = inl e →
  (∀ msg, e ≠ CalledProcessError msg) →
  get_git_files env file_type w = (Raise e, w) ∧
  ∀ (B : Type) (k : list string → IO B),
    (get_git_files env file_type ≫= k) w = (Raise e, w).
Proof.
  intros Hls Hne.
  assert (get_git_files env file_type w = (Raise e, w)) as Hget.
  { unfold get_git_files. io_unfold. rewrite Hls.
    destruct e; try done. by destruct (Hne msg). }
  split; [done|]. intros B k. io_unfold. by rewrite Hget.
Qed.

Lemma get_git_files_unhandled_witness :
  get_git_files (SL:=ascii_strlib)
    (repo_env (inl (OSError "No such file or directory: 'git'")) (inr (0%Z, "")))
    None (World ["1"] [])
  = (Raise (OSError "No such file or directory: 'git'"), World ["1"] []).
Proof.
  apply (get_git_files_unhandled
           (repo_env (inl (OSError "No such file or directory: 'git'")) (inr (0%Z, "")))
           None (OSError "No such file or directory: 'git'") (World ["1"] [])).
  - reflexivity.
  - discriminate.
Defined.

(** ** Directory expansion *)

(** X11: when the listing of a directory exits with a non-zero status, the
    expansion prints [Error finding files in <directory>] to the error stream
    and yields the empty list; the program goes on with it. *)
Theorem expand_directory_listing_error (env : Env) (directory msg : string) (w : world) :
  git_ls_files env
    ["git"; "ls-files"; "--cached"; "--others"; "--exclude-standard"; directory +:+ "*"]
  = inl (CalledProcessError msg) →
  let w' := World (stdin w) (trace w ++ [Stderr ("Error finding files in " +:+ directory)]) in
  expand_directory env directory w = (Ret [], w') ∧
  ∀ (B : Type) (k : list string → IO B),
    (expand_directory env directory ≫= k) w = k [] w'.
Proof.
  intros Hls w'.
  assert (expand_directory env directory w = (Ret [], w')) as Hex.
  { unfold expand_directory. io_unfold. by rewrite Hls. }
  split; [done|]. intros B k. io_unfold. by rewrite Hex.
Qed.

Lemma expand_directory_listing_error_witness :
  expand_directory (repo_env (inl (CalledProcessError "status 128")) (inr (0%Z, "")))
    "b/" (World [] [])
  = (Ret [], World [] [Stderr "Error finding files in b/"]).
Proof.
  apply (expand_directory_listing_error
           (repo_env (inl (CalledProcessError "status 128")) (inr (0%Z, "")))
           "b/" "status 128" (World [] [])).
  reflexivity.
Defined.

(** ** Computations that touch neither the terminal nor [sys.exit] *)

Lemma quiet_ret {A} (a : A) : quiet (mret a : IO A).
Proof. intros w. split; [done|]. intros code. discriminate. Qed.

Lemma quiet_call {A} (r : exn + A) : quiet (call r).
Proof. intros w. destruct r; (split; [done|]); intros code; discriminate. Qed.

Lemma quiet_bind {A B} (m : IO A) (k : A → IO B) :
  quiet m → (∀ a, quiet (k a)) → quiet (m ≫= k).
Proof.
  intros Hm Hk w. destruct (Hm w) as [Hw Hne]. unfold mbind, io_bind.
  destruct (m w) as [[a|code|e] w1]; cbn in *; subst.
  - apply Hk.
  - by destruct (Hne code).
  - split; [done|]. intros code. discriminate.
Qed.

Lemma quiet_try_except {A} (body : IO A) (handler : exn → option (IO A)) :
  quiet body → (∀ e h, handler e = Some h → quiet h) →
  quiet (try_except body handler).
Proof.
  intros Hb Hh w. destruct (Hb w) as [Hw Hne]. unfold try_except.
  destruct (body w) as [[a|code|e] w1]; cbn in *; subst; [done|done|].
  destruct (handler e) as [h|] eqn:He; [by apply (Hh e)|].
  split; [done|]. intros code. discriminate.
Qed.

Lemma quiet_for_each {A S} (l : list A) (body : S → A → IO S) (acc : S) :
  (∀ acc x, quiet (body acc x)) → quiet (for_each l body acc).
Proof.
  intros Hb. revert acc. induction l as [|x l IH]; intros acc; cbn.
  - apply quiet_ret.
  - apply quiet_bind; [apply Hb|apply IH].
Qed.

Lemma quiet_add_selected (env : Env) (git_root : string)
    (final_files : list string) (item : string) :
  quiet (add_selected env git_root final_files item).
Proof.
  unfold add_selected. destruct (isdir env item).
  - apply quiet_for_each. intros acc [root filenames].
    apply quiet_for_each. intros acc' filename.
    destruct (Str.endswith filename ".py"); [|apply quiet_ret].
    apply quiet_bind; [apply quiet_call|intros; apply quiet_ret].
  - apply quiet_bind; [apply quiet_call|intros; apply quiet_ret].
Qed.

(** ** The interactive selector adapter, continued *)

Lemma interactive_file_selection_cases `{SL : StrLib} (env : Env) (files : list string) (w : world) :
  (∃ selected, interactive_file_selection env files w = (Ret selected, w)) ∨
  (∃ e, interactive_file_selection env files w
        = (SysExit 1%Z,
           World (stdin w) (trace w ++ [Stderr ("Error running fzf: " +:+ exn_str e)]))).
Proof.
  unfold interactive_file_selection.
  match goal with |- context [try_except ?b _] => set (body := b) end.
  assert (quiet body) as Hq.
  { subst body. cbv zeta. apply quiet_bind.
    - apply quiet_try_except; [apply quiet_call|].
      intros e h. unfold except_CalledProcessError.
      destruct e; intros [= <-]. apply quiet_ret.
    - intros git_root. apply quiet_bind; [apply quiet_call|].
      intros result. destruct (result.1 =? 0)%Z; [|apply quiet_ret].
      apply quiet_bind; [|intros; apply quiet_ret].
      apply quiet_for_each. intros. apply quiet_add_selected. }
  destruct (Hq w) as [Hw Hne]. unfold try_except.
  destruct (body w) as [[selected|code|e] w1]; cbn in *; subst.
  - left. by exists selected.
  - by destruct (Hne code).
  - right. by exists e.
Qed.

(** X12: the selection never raises: either it returns a list and leaves
    standard input and the trace as they are, or it prints one line
    [Error running fzf: ...] to the error stream and exits with status 1. *)
Theorem interactive_file_selection_outcome `{SL : StrLib} (env : Env) (files : list string) (w : world) :
  (∃ selected, interactive_file_selection env files w = (Ret selected, w)) ∨
  (∃ e, interactive_file_selection env files w
        = (SysExit 1%Z,
           World (stdin w) (trace w ++ [Stderr ("Error running fzf: " +:+ exn_str e)]))).
Proof. apply interactive_file_selection_cases. Qed.

Lemma interactive_file_selection_ret `{SL : StrLib} (env : Env) (files : list string)
    (w w' : world) (selected : list string) :
  interactive_file_selection env files w = (Ret selected, w') →
  selected = [] ∨
  ∃ final_files, selected = sorted id (elements (list_to_set final_files : gset string)).
Proof.
  unfold interactive_file_selection, try_except.
  match goal with |- context [mbind ?k ?m] => set (body := mbind k m) end.
  destruct (body w) as [[sel|code|e] w1] eqn:Hbody; [|done|done].
  intros [= -> ->]. subst body. revert Hbody. io_unfold.
  destruct (git_toplevel env) as [[]|root]; cbn; try done;
    destruct (run_fzf env _) as [?|[rc out]]; cbn; try done;
    destruct (rc =? 0)%Z; cbn;
    try (intros [= <- <-]; by left);
    destruct (for_each _ _ _ _) as [[ff|?|?] ?]; cbn; try done;
    intros [= <- <-]; right; by exists ff.
Qed.

(** X13: a list returned by the selection has no duplicates and is in
    strictly increasing string order. *)
Theorem interactive_file_selection_sorted_set `{SL : StrLib} (env : Env) (files : list string)
    (w w' : world) (selected : list string) :
  interactive_file_selection env files w = (Ret selected, w') →
  NoDup selected ∧
  ∀ i j a b, i < j → selected !! i = Some a → selected !! j = Some b →
             String.ltb a b = true.
Proof.
  intros [->|(ff & ->)]%interactive_file_selection_ret.
  { split; [constructor|]. by intros [|i] j a b. }
  assert (NoDup (sorted id (elements (list_to_set ff : gset string)))) as Hnd.
  { rewrite sorted_perm. apply NoDup_elements. }
  split; [done|]. intros i j a b Hij Hi Hj.
  pose proof (sorted_lookup_le id _ i j a b (sorted_sorted id _) Hij Hi Hj) as Hle.
  unfold key_le, py_le, py_lt in Hle. cbn in Hle.
  unfold String.ltb. change String.compare with (cmp (K:=string)).
  rewrite (cmp_antisym a b) in Hle.
  destruct (cmp a b) eqn:Hc; [|done|done].
  apply cmp_eq in Hc as ->.
  pose proof (NoDup_lookup _ _ _ _ Hnd Hi Hj). lia.
Qed.

Lemma interactive_file_selection_sorted_set_witness :
  NoDup ["a.py"; "b/x.py"] ∧
  ∀ i j a b, i < j → ["a.py"; "b/x.py"] !! i = Some a → ["a.py"; "b/x.py"] !! j = Some b →
             String.ltb a b = true.
Proof.
  apply (interactive_file_selection_sorted_set (SL:=ascii_strlib)
           (repo_env (inr tracked_example)
              (inr (0%Z, String.concat (String Str.newline "") ["b/x.py"; "a.py"; "b/x.py"])))
           ["a.py"; "b/x.py"] (World [] []) (World [] [])).
  vm_compute. reflexivity.
Defined.

Lemma add_py_files (env : Env) (git_root root : string) (filenames : list string)
    (acc acc' : list string) (w w' : world) :
  for_each filenames
    (λ acc filename,
       if Str.endswith filename ".py" then
         let abs_path := path_join root filename in
         rel_path ← call (relpath env abs_path git_root);
         mret (acc ++ [rel_path])
       else mret acc)
    acc w = (Ret acc', w') →
  ∃ added, acc' = acc ++ added ∧
    ∀ p, p ∈ added →
      ∃ filename, filename ∈ filenames ∧ Str.endswith filename ".py" = true ∧
                  relpath env (path_join root filename) git_root = inr p.
Proof.
  revert acc w. induction filenames as [|filename l IH]; intros acc w; cbn [for_each].
  - intros [= <- _]. exists []. rewrite app_nil_r. split; [done|].
    by intros p ?%elem_of_nil.
  - io_unfold. destruct (Str.endswith filename ".py") eqn:Hpy; cbv zeta.
    + destruct (relpath env (path_join root filename) git_root) as [?|rel] eqn:Hrel;
        cbn; [done|].
      intros (added & -> & Hadded)%IH. exists (rel :: added).
      rewrite <- app_assoc. split; [done|].
      intros p [->|Hp]%elem_of_cons.
      * exists filename. split; [by left|done].
      * destruct (Hadded p Hp) as (fn & ? & ? & ?). exists fn. split; [by right|done].
    + intros (added & -> & Hadded)%IH. exists added. split; [done|].
      intros p Hp. destruct (Hadded p Hp) as (fn & ? & ? & ?).
      exists fn. split; [by right|done].
Qed.

(** X14: for a selected directory only the files named [*.py] found by the
    walk are added, each as the relative path of [root/filename]; what was
    collected before stays in front. *)
Theorem add_selected_directory (env : Env) (git_root : string)
    (final_files : list string) (item : string) (w w' : world) (result : list string) :
  isdir env item = true →
  add_selected env git_root final_files item w = (Ret result, w') →
  ∃ added, result = final_files ++ added ∧
    ∀ p, p ∈ added →
      ∃ root filenames filename,
        (root, filenames) ∈ walk env item ∧ filename ∈ filenames ∧
        Str.endswith filename ".py" = true ∧
        relpath env (path_join root filename) git_root = inr p.
Proof.
  intros Hdir. unfold add_selected. rewrite Hdir.
  generalize (walk env item) as dirs. intros dirs. revert final_files w.
  induction dirs as [|[root filenames] dirs IH]; intros acc w; cbn [for_each].
  - intros [= <- _]. exists []. rewrite app_nil_r. split; [done|].
    by intros p ?%elem_of_nil.
  - unfold mbind at 1, io_bind at 1.
    match goal with |- context [for_each filenames ?f acc w] =>
      destruct (for_each filenames f acc w) as [[acc1|?|?] w1] eqn:Hin end;
      [|done|done].
    apply add_py_files in Hin as (added1 & -> & H1).
    intros (added2 & -> & H2)%IH. exists (added1 ++ added2).
    rewrite app_assoc. split; [done|].
    intros p [Hp|Hp]%elem_of_app.
    + destruct (H1 p Hp) as (fn & ? & ? & ?).
      exists root, filenames, fn. split; [by left|done].
    + destruct (H2 p Hp) as (r & fns & fn & ? & ?).
      exists r, fns, fn. split; [by right|done].
Qed.

Lemma add_selected_directory_witness :
  let env :=
    {| git_ls_files := λ _, inr [];
       git_toplevel := inr "/repo";
       run_fzf := λ _, inr (0%Z, "src");
       run_aider := λ _, inr 0%Z;
       isdir := λ p, String.eqb p "src";
       walk := λ _, [("src", ["a.py"; "notes.txt"]); ("src/pkg", ["b.py"])];
       abspath := λ p, p;
       relpath := λ p _, inr p |} in
  ∃ added, ["src/a.py"; "src/pkg/b.py"] = [] ++ added ∧
    ∀ p, p ∈ added →
      ∃ root filenames filename,
        (root, filenames) ∈ walk env "src" ∧ filename ∈ filenames ∧
        Str.endswith filename ".py" = true ∧
        relpath env (path_join root filename) "/repo" = inr p.
Proof.
  intros env.
  apply (add_selected_directory env "/repo" [] "src" (World [] []) (World [] []));
    reflexivity.
Defined.

(** ** The expansion of the selection *)

Lemma select_expand_selected `{Fnmatch} `{SL : StrLib} (env : Env) :
  select env
  = (print "Select file type to list:";;
     for_each FILE_TYPES
       (λ _ '(key, (_, description)), print (key +:+ ". " +:+ description)) ();;
     choice ← (λ w, read_choice (stdin w) (trace w));
     '(selected_type, description) ← call (file_type_of choice);
     print ("Listing " +:+ description);;
     all_files ← get_git_files env selected_type;
     selected_files ←
       interactive_file_selection env
         (sort_files (filter_files all_files SKIP_FILES SKIP_DIRS));
     expand_selected env selected_files).
Proof. reflexivity. Qed.

Lemma expand_selected_plain_acc (env : Env) (selected_files acc : list string) (w : world) :
  Forall (λ file, Str.endswith file "/" = false) selected_files →
  for_each selected_files
    (λ final_files file,
       if Str.endswith file "/" then
         expanded ← expand_directory env file;
         mret (final_files ++ expanded)
       else mret (final_files ++ [file]))
    acc w = (Ret (acc ++ selected_files), w).
Proof.
  intros Hall. revert acc.
  induction Hall as [|file l Hfile _ IH]; intros acc; cbn [for_each].
  - by rewrite app_nil_r.
  - rewrite Hfile. io_unfold. rewrite IH. by rewrite <- app_assoc.
Qed.

(** When no selected path ends with a separator, the expansion loop of
    [main] returns the selection as it is, in order, without printing. *)
Lemma expand_selected_plain (env : Env) (selected_files : list string) (w : world) :
  Forall (λ file, Str.endswith file "/" = false) selected_files →
  expand_selected env selected_files w = (Ret selected_files, w).
Proof. intros Hall. apply (expand_selected_plain_acc env selected_files [] w Hall). Qed.

Lemma expand_selected_plain_witness :
  expand_selected (repo_env (inl (OSError "git is missing")) (inr (0%Z, "")))
    ["a.py"; "b/x.py"] (World [] [])
  = (Ret ["a.py"; "b/x.py"], World [] []).
Proof.
  apply expand_selected_plain. repeat constructor.
Defined.

(** ** The menu loop *)

Lemma existsb_find {A} (f : A → bool) (l : list A) :
  existsb f l = true → ∃ x, List.find f l = Some x.
Proof.
  induction l as [|y l IH]; cbn; [done|].
  destruct (f y); [by exists y|]. exact IH.
Qed.

(** X15: the menu loop rejects the lines that are not, stripped, a key of
    [FILE_TYPES], writing a prompt and a complaint for each, and returns the
    first line that is one, stripped; the lines after it stay unread, and
    the lookup of the returned choice in [FILE_TYPES] cannot fail. *)
Theorem read_choice_first_valid `{SL : StrLib} (bad : list string) (good : string)
    (rest : list string) (tr : list event) :
  Forall (λ line, valid_choice line = false) bad →
  valid_choice good = true →
  read_choice (bad ++ good :: rest) tr
  = (Ret (str_strip good),
     World rest (tr ++ retry_events bad ++ [Prompt "Enter your choice (1-8): "])) ∧
  ∃ entry, file_type_of (str_strip good) = inr entry.
Proof.
  intros Hbad Hgood. split.
  - revert tr. induction Hbad as [|line bad Hline _ IH]; intros tr.
    + cbn [app read_choice]. unfold valid_choice in Hgood. cbv zeta.
      by rewrite Hgood.
    + cbn [app read_choice]. unfold valid_choice in Hline. cbv zeta.
      rewrite Hline, IH. cbn [retry_events flat_map app].
      by rewrite <- !app_assoc.
  - unfold file_type_of. unfold valid_choice in Hgood.
    apply existsb_find in Hgood as [kv ->]. by exists kv.2.
Qed.

Lemma read_choice_first_valid_witness :
  read_choice (SL:=ascii_strlib) (["python"; ""] ++ " 4 " :: ["yes"]) []
  = (Ret (Str.strip " 4 "),
     World ["yes"]
       ([] ++ retry_events ["python"; ""] ++ [Prompt "Enter your choice (1-8): "])) ∧
  ∃ entry, file_type_of (Str.strip " 4 ") = inr entry.
Proof.
  apply (read_choice_first_valid (SL:=ascii_strlib) ["python"; ""] " 4 " ["yes"] []).
  - repeat constructor.
  - reflexivity.
Defined.

(** X16: when no line of standard input is a valid choice, the menu loop
    prompts once per line and once more, then ends with [EOFError]; the
    input is used up. *)
Theorem read_choice_exhausted `{SL : StrLib} (lines : list string) (tr : list event) :
  Forall (λ line, valid_choice line = false) lines →
  read_choice lines tr
  = (Raise EOFError,
     World [] (tr ++ retry_events lines ++ [Prompt "Enter your choice (1-8): "])).
Proof.
  intros Hbad. revert tr. induction Hbad as [|line bad Hline _ IH]; intros tr.
  - done.
  - cbn [read_choice]. unfold valid_choice in Hline. cbv zeta.
    rewrite Hline, IH. cbn [retry_events flat_map app].
    by rewrite <- !app_assoc.
Qed.

Lemma read_choice_exhausted_witness :
  read_choice (SL:=ascii_strlib) ["0"; "9"] []
  = (Raise EOFError,
     World [] ([] ++ retry_events ["0"; "9"] ++ [Prompt "Enter your choice (1-8): "])).
Proof. apply read_choice_exhausted. repeat constructor. Defined.

(** ** [main], continued *)

(** X17: when the selection phase ends with no file, [main] prints
    [No files selected. Exiting.] and exits with status 0: no command is
    built, no confirmation is asked and no further input is read. *)
Theorem main_nothing_selected `{Fnmatch} `{SL : StrLib} (env : Env) (w w1 : world) :
  select env w = (Ret [], w1) →
  main env w
  = (SysExit 0%Z, World (stdin w1) (trace w1 ++ [Stdout "No files selected. Exiting."])).
Proof. intros Hsel. unfold main. io_unfold. by rewrite Hsel. Qed.

Lemma main_nothing_selected_witness :
  @main glob_fnmatch ascii_strlib (repo_env (inr tracked_example) (inr (1%Z, ""))) (World ["1"; "yes"] [])
  = (SysExit 0%Z,
     World ["yes"]
       ([Stdout "Select file type to list:"; Stdout "1. Python files";
         Stdout "2. C files"; Stdout "3. C++ files"; Stdout "4. Rust files";
         Stdout "5. JavaScript files"; Stdout "6. TypeScript files";
         Stdout "7. Shell scripts"; Stdout "8. All files";
         Prompt "Enter your choice (1-8): "; Stdout "Listing Python files"]
        ++ [Stdout "No files selected. Exiting."])).
Proof.
  apply (@main_nothing_selected glob_fnmatch ascii_strlib
           (repo_env (inr tracked_example) (inr (1%Z, ""))) (World ["1"; "yes"] [])
           (World ["yes"]
              [Stdout "Select file type to list:"; Stdout "1. Python files";
               Stdout "2. C files"; Stdout "3. C++ files"; Stdout "4. Rust files";
               Stdout "5. JavaScript files"; Stdout "6. TypeScript files";
               Stdout "7. Shell scripts"; Stdout "8. All files";
               Prompt "Enter your choice (1-8): "; Stdout "Listing Python files"])).
  vm_compute. reflexivity.
Defined.

(** ** The expansion of the selection, continued *)

Lemma expand_selected_acc (env : Env) (selected_files acc : list string) (w : world) :
  Forall (λ file, Str.endswith file "/" = true →
            returns_or_exits
              (git_ls_files env
                 ["git"; "ls-files"; "--cached"; "--others"; "--exclude-standard";
                  file +:+ "*"]) = true) selected_files →
  for_each selected_files
    (λ final_files file,
       if Str.endswith file "/" then
         expanded ← expand_directory env file;
         mret (final_files ++ expanded)
       else mret (final_files ++ [file]))
    acc w
  = (Ret (acc ++ flat_map (expansion_of env) selected_files),
     World (stdin w) (trace w ++ flat_map (expansion_errors env) selected_files)).
Proof.
  intros Hall. revert acc w.
  induction Hall as [|file l Hfile _ IH]; intros acc [input tr]; cbn [for_each flat_map].
  - by rewrite !app_nil_r.
  - unfold expansion_of at 1, expansion_errors at 1.
    destruct (Str.endswith file "/") eqn:Hdir.
    + specialize (Hfile eq_refl). unfold expand_directory. io_unfold.
      destruct (git_ls_files env _) as [[]|lines]; try done; cbn; rewrite IH; cbn;
        by rewrite <- !app_assoc.
    + io_unfold. rewrite IH. cbn. by rewrite <- !app_assoc.
Qed.

(** X18: the expansion loop of [main] replaces, in place and in order, each
    selected directory entry by the lines of its listing, and by nothing
    plus one error line when that listing exits with a non-zero status;
    plain paths stay; nothing is deduplicated and no input is read. *)
Theorem expand_selected_flat_map (env : Env) (selected_files : list string) (w : world) :
  Forall (λ file, Str.endswith file "/" = true →
            returns_or_exits
              (git_ls_files env
                 ["git"; "ls-files"; "--cached"; "--others"; "--exclude-standard";
                  file +:+ "*"]) = true) selected_files →
  expand_selected env selected_files w
  = (Ret (flat_map (expansion_of env) selected_files),
     World (stdin w) (trace w ++ flat_map (expansion_errors env) selected_files)).
Proof. intros Hall. apply (expand_selected_acc env selected_files [] w Hall). Qed.

Lemma expand_selected_flat_map_witness :
  expand_selected (repo_env (inr ["b/x.py"; "b/y.py"]) (inr (0%Z, "")))
    ["b/x.py"; "b/"] (World ["yes"] [])
  = (Ret ["b/x.py"; "b/x.py"; "b/y.py"], World ["yes"] []).
Proof.
  apply (expand_selected_flat_map (repo_env (inr ["b/x.py"; "b/y.py"]) (inr (0%Z, "")))
           ["b/x.py"; "b/"] (World ["yes"] [])).
  repeat constructor.
Defined.

